(** * The Halibot IRC agent (irc.py): identity cache, event translation,
      channel joining and configuration, as a shallow embedding.

    The agent's coroutines are modelled as computations in a state and
    exception monad.  [await f(x)] runs [f x] at that point; a handler runs to
    completion before the next one starts.  A coroutine function that is called
    but not awaited runs nothing: the call only yields a coroutine object. *)

From stdpp Require Import gmap strings list fin_maps.

Set Default Proof Using "Type".

(** ** Python values *)

Inductive exn :=
  | KeyError (key : string)
  | TypeError (what : string).

(** The part of a pydle WHOIS record that the agent reads:
    [info['identified']] and [info['account']].  The reply to
    [self.whois(nick)] is such a record, or [None] when the server knows no
    such nickname: replies and cache values are [option whois_info]. *)
Record whois_info := WhoisInfo {
  identified : bool;
  account : option string
}.

(** A value of the agent's configuration dictionary. *)
Inductive cfg_value :=
  | CStr (s : string)
  | CInt (z : Z)
  | CBool (b : bool)
  | CList (l : list string).

#[global] Instance cfg_value_eq_dec : EqDecision cfg_value.
Proof. solve_decision. Defined.

(** Python truthiness, as used by [if self.options['tls']]. *)
Definition truthy (v : cfg_value) : bool :=
  match v with
  | CStr s => negb (String.eqb s "")
  | CInt z => negb (Z.eqb z 0)
  | CBool b => b
  | CList l => negb (bool_decide (l = []))
  end.

(** ** A state and exception monad.
    A raised exception keeps the state reached when it was raised. *)

Inductive outcome (A : Type) :=
  | Return (a : A)
  | Raise (e : exn).
Arguments Return {A} a.
Arguments Raise {A} e.

Definition M (S A : Type) : Type := S -> outcome A * S.

Definition ret {S A} (a : A) : M S A := fun s => (Return a, s).
Definition raise {S A} (e : exn) : M S A := fun s => (Raise e, s).
Definition bind {S A B} (m : M S A) (k : A -> M S B) : M S B :=
  fun s =>
    match m s with
    | (Return a, s') => k a s'
    | (Raise e, s') => (Raise e, s')
    end.

Declare Scope py_scope.
Delimit Scope py_scope with py.
Notation "x <- m ;; k" := (bind m (fun x => k))
  (at level 100, m at next level, right associativity) : py_scope.
Notation "m ;;; k" := (bind m (fun _ => k))
  (at level 100, right associativity) : py_scope.
Open Scope py_scope.

(** [for x in l: body(x)] *)
Fixpoint for_each {S A} (l : list A) (body : A -> M S unit) : M S unit :=
  match l with
  | [] => ret tt
  | x :: l' => body x ;;; for_each l' body
  end.

(** ** IrcAgent *)

(** What [IrcAgent.init] passes to the [IrcClient] constructor. *)
Record client_args := ClientArgs {
  nickname : cfg_value;
  tls_certificate_file : option cfg_value;
  tls_certificate_keyfile : option cfg_value;
  tls_certificate_password : option cfg_value;
  sasl_username : option cfg_value;
  sasl_password : option cfg_value;
  sasl_identity : option cfg_value
}.

Record IrcAgent := Agent {
  name : string;
  config : gmap string cfg_value
}.

(** An [IrcClient] instance: its constructor arguments and the [agent] handle
    that [IrcAgent.init] sets before the client thread starts.  An instance has
    no [whois_cache] attribute of its own: nothing in the class ever assigns
    [self.whois_cache], so that name always resolves to the class attribute. *)
Record IrcClient := Client {
  args : client_args;
  agent : IrcAgent
}.

(** The Halibot message built from an IRC event.  The [identity] keyword is
    either a resolved value ([None] or an account name) or the coroutine object
    of a call [self.identity(nick)] that was never awaited. *)
Inductive identity_value :=
  | Resolved (acct : option string)
  | CoroutineObject (self : IrcClient) (nick : string).

Record Message := Msg {
  body : string;
  author : string;
  msg_identity : identity_value;
  origin : string
}.

(** Calls that leave the agent's code: pydle's client and the Halibot base. *)
Inductive effect :=
  | SuperOnConnect (self : IrcClient)
  | Join (self : IrcClient) (channel : string)
  | Whois (self : IrcClient) (nick : string)
  | Dispatch (self : IrcClient) (msg : Message).

(** The state the [IrcClient] methods run in.  [whois_cache] is the attribute
    of the class [IrcClient]: one dictionary, created when the class body is
    executed and mutated in place through every instance. *)
Record world := World {
  whois_cache : gmap string (option whois_info);
  log : list effect
}.

(** The world right after the class definition has been executed. *)
Definition class_defined : world := World ∅ [].

Definition emit (e : effect) : M world unit :=
  fun w => (Return tt, World (whois_cache w) (log w ++ [e])).

(** [k in self.whois_cache] *)
Definition cache_contains (k : string) : M world bool :=
  fun w => (Return (bool_decide (is_Some (whois_cache w !! k))), w).

(** [self.whois_cache.pop(k)]: raises [KeyError] when [k] is absent. *)
Definition cache_pop (k : string) : M world (option whois_info) :=
  fun w =>
    match whois_cache w !! k with
    | Some r => (Return r, World (delete k (whois_cache w)) (log w))
    | None => (Raise (KeyError k), w)
    end.

(** [self.whois_cache[k]]: raises [KeyError] when [k] is absent. *)
Definition cache_get (k : string) : M world (option whois_info) :=
  fun w =>
    match whois_cache w !! k with
    | Some r => (Return r, w)
    | None => (Raise (KeyError k), w)
    end.

(** [self.whois_cache[k] = r] *)
Definition cache_set (k : string) (r : option whois_info) : M world unit :=
  fun w => (Return tt, World (<[k := r]> (whois_cache w)) (log w)).

(** [info[key]] on a cached value: a record is subscripted, [None] raises
    [TypeError]. *)
Definition subscript (info : option whois_info) : M world whois_info :=
  match info with
  | Some r => ret r
  | None => raise (TypeError "'NoneType' object is not subscriptable")
  end.

(** [self.agent.config[k]] *)
Definition config_get (a : IrcAgent) (k : string) : M world cfg_value :=
  match config a !! k with
  | Some v => ret v
  | None => raise (KeyError k)
  end.

(** ** IrcClient *)

Section IrcClient.

(** The reply of the IRC server to [self.whois(nick)]: it may depend on the
    connection asking, on everything that happened before, and on the
    nickname. *)
Context (pydle_whois : IrcClient -> list effect -> string -> option whois_info).

(** [await self.whois(nick)] *)
Definition whois (self : IrcClient) (nick : string)
  : M world (option whois_info) :=
  fun w =>
    (Return (pydle_whois self (log w) nick),
     World (whois_cache w) (log w ++ [Whois self nick])).

(** [await self.join(channel)] *)
Definition join (self : IrcClient) (channel : string) : M world unit :=
  emit (Join self channel).

(** [self.agent.dispatch(msg)] *)
Definition dispatch (self : IrcClient) (msg : Message) : M world unit :=
  emit (Dispatch self msg).

Definition on_connect (self : IrcClient) : M world unit :=
  emit (SuperOnConnect self) ;;;
  channel <- config_get (agent self) "channel" ;;
  match channel with
  | CStr s => join self s
  | CList l => for_each l (fun c => join self c)
  | CInt _ => raise (TypeError "'int' object is not iterable")
  | CBool _ => raise (TypeError "'bool' object is not iterable")
  end.

Definition on_quit (self : IrcClient) (channel user : string) : M world unit :=
  present <- cache_contains user ;;
  if present : bool then cache_pop user ;;; ret tt else ret tt.

Definition on_nick_change (self : IrcClient) (old new : string) : M world unit :=
  old_present <- cache_contains old ;;
  (if old_present : bool then cache_pop old ;;; ret tt else ret tt) ;;;
  new_present <- cache_contains new ;;
  if new_present : bool then cache_pop new ;;; ret tt else ret tt.

Definition identity (self : IrcClient) (nick : string) : M world (option string) :=
  present <- cache_contains nick ;;
  (if negb present
   then r <- whois self nick ;; cache_set nick r
   else ret tt) ;;;
  info <- cache_get nick ;;
  r <- subscript info ;;
  if identified r
  then info' <- cache_get nick ;; r' <- subscript info' ;; ret (account r')
  else ret None.

Definition on_channel_message (self : IrcClient) (target by_ text : string)
  : M world unit :=
  let org := name (agent self) +:+ "/" +:+ target in
  i <- identity self by_ ;;
  let msg := Msg text by_ (Resolved i) org in
  dispatch self msg.

(** [self.identity(by)] is called here without [await]: the call runs none of
    [identity]'s body and evaluates to a coroutine object. *)
Definition on_private_message (self : IrcClient) (by_ text : string)
  : M world unit :=
  let org := name (agent self) +:+ "/" +:+ by_ in
  let msg := Msg text by_ (CoroutineObject self by_) org in
  dispatch self msg.

(** Direct calls of the client's methods, each with the parameters that the
    source declares for it. *)
Inductive call :=
  | OnConnect
  | OnQuit (channel user : string)
  | OnNickChange (old new : string)
  | Identity (nick : string)
  | OnChannelMessage (target by_ text : string)
  | OnPrivateMessage (by_ text : string).

Definition run_call (self : IrcClient) (c : call) : M world unit :=
  match c with
  | OnConnect => on_connect self
  | OnQuit channel user => on_quit self channel user
  | OnNickChange old new => on_nick_change self old new
  | Identity nick => identity self nick ;;; ret tt
  | OnChannelMessage target by_ text => on_channel_message self target by_ text
  | OnPrivateMessage by_ text => on_private_message self by_ text
  end.

(** A sequence of calls, each on some client instance.  An exception ends the
    call that raised it and the next call runs on the state it left. *)
Fixpoint run_calls (cs : list (IrcClient * call)) (w : world) : world :=
  match cs with
  | [] => w
  | (self, c) :: cs' => run_calls cs' (run_call self c w).2
  end.

End IrcClient.

(** The calls that remove the cache entry of [n]: [on_quit] with [n] as its
    parameter [user], [on_nick_change] with [n] as [old] or as [new]. *)
Definition invalidates (n : string) (c : call) : bool :=
  match c with
  | OnQuit _ user => bool_decide (user = n)
  | OnNickChange old new => bool_decide (old = n) || bool_decide (new = n)
  | _ => false
  end.

Definition joined (l : list effect) : list string :=
  omap (fun e => match e with Join _ c => Some c | _ => None end) l.

Definition dispatched (l : list effect) : list Message :=
  omap (fun e => match e with Dispatch _ m => Some m | _ => None end) l.

Definition whois_queries (l : list effect) : list string :=
  omap (fun e => match e with Whois _ n => Some n | _ => None end) l.

(** ** IrcAgent.Configurer and IrcAgent.init *)

(** Modelled from the spec: [HalConfigurer] belongs to the Halibot host package
    and is not part of this repository.  Each option is collected once by its
    prompt and stored in [self.options] under the key the call names; an empty
    answer takes the default, and nothing is stored when there is neither.
    An [operator] gives the validated answer to each prompt. *)
Record operator := Operator {
  answer_string : string -> option string;
  answer_int : string -> option Z;
  answer_boolean : string -> option bool
}.

Definition or_default {A} (answer default : option A) : option A :=
  match answer with
  | Some a => Some a
  | None => default
  end.

Section Configurer.

Context (op : operator).

Definition store (key : string) (val : option cfg_value)
  : M (gmap string cfg_value) unit :=
  fun options =>
    (Return tt, match val with
                | Some v => <[key := v]> options
                | None => options
                end).

Definition optionString (key prompt : string) (default : option string) :=
  store key (CStr <$> or_default (answer_string op prompt) default).

Definition optionInt (key prompt : string) (default : option Z) :=
  store key (CInt <$> or_default (answer_int op prompt) default).

Definition optionBoolean (key prompt : string) (default : option bool) :=
  store key (CBool <$> or_default (answer_boolean op prompt) default).

(** [self.options[k]] *)
Definition options_get (k : string) : M (gmap string cfg_value) cfg_value :=
  fun options =>
    match options !! k with
    | Some v => (Return v, options)
    | None => (Raise (KeyError k), options)
    end.

(** [k in self.options] *)
Definition options_contains (k : string) : M (gmap string cfg_value) bool :=
  fun options => (Return (bool_decide (is_Some (options !! k))), options).

Definition configure : M (gmap string cfg_value) unit :=
  optionString "nickname" "Nickname" (Some "halibot") ;;;
  optionString "hostname" "Server hostname" (Some "irc.libera.chat") ;;;
  optionInt "port" "Server port" (Some 6697%Z) ;;;
  optionString "channel" "Channel to join" None ;;;
  optionBoolean "tls" "Enable TLS" (Some true) ;;;
  tls <- options_get "tls" ;;
  (if truthy tls then
     optionBoolean "tls-verify" "Verify server TLS certificate" (Some false) ;;;
     tls_verify <- options_get "tls-verify" ;;
     if truthy tls_verify then
       optionString "tls-certificate-file" "TLS certificate file" None ;;;
       optionString "tls-certificate-keyfile" "TLS certificate keyfile" None ;;;
       optionString "tls-certificate-file" "TLS certificate password" None
     else ret tt
   else ret tt) ;;;
  optionString "sasl-username" "SASL username" None ;;;
  has_sasl <- options_contains "sasl-username" ;;
  if has_sasl : bool then
    optionString "sasl-password" "SASL password" None ;;;
    optionString "sasl-identity" "SASL identity" None
  else ret tt.

End Configurer.

(** [IrcAgent.init], up to the start of the client thread: the client object
    it constructs, with its [agent] handle set. *)
Definition init (self : IrcAgent) : outcome IrcClient :=
  match config self !! "nickname" with
  | None => Raise (KeyError "nickname")
  | Some nick =>
      Return (Client
        (ClientArgs nick
           (config self !! "tls-certificate-file")
           (config self !! "tls-certificate-keyfile")
           (config self !! "tls-certificate-file")
           (config self !! "sasl-username")
           (config self !! "sasl-password")
           (config self !! "sasl-identity"))
        self)
  end.

(** ** Sample data used by the examples below *)

Definition sample_config (channel : cfg_value) : gmap string cfg_value :=
  <["nickname" := CStr "halibot"]> (<["channel" := channel]> ∅).

Definition sample_client (agent_name : string) (channel : cfg_value) : IrcClient :=
  let a := Agent agent_name (sample_config channel) in
  Client (ClientArgs (CStr "halibot") None None None None None None) a.

Definition irc : IrcClient := sample_client "irc" (CStr "#foo").
Definition irc_many : IrcClient := sample_client "irc" (CList ["#foo"; "#bar"]).
Definition libera : IrcClient := sample_client "libera" (CStr "#foo").
Definition oftc : IrcClient := sample_client "oftc" (CStr "#bar").

(** A server on which everybody is identified under the nickname followed by
    an underscore, and one on which nobody is identified. *)
Definition all_identified
  : IrcClient -> list effect -> string -> option whois_info :=
  fun _ _ nick => Some (WhoisInfo true (Some (nick +:+ "_"))).

Definition none_identified
  : IrcClient -> list effect -> string -> option whois_info :=
  fun _ _ _ => Some (WhoisInfo false None).

(** The reply changes with time: identified on the first query only. *)
Definition identified_at_first
  : IrcClient -> list effect -> string -> option whois_info :=
  fun _ history nick =>
    match whois_queries history with
    | [] => Some (WhoisInfo true (Some (nick +:+ "_")))
    | _ => Some (WhoisInfo false None)
    end.

(** Two networks: on the one of agent "libera" everybody is identified, on
    every other one nobody is. *)
Definition two_networks
  : IrcClient -> list effect -> string -> option whois_info :=
  fun self history nick =>
    if String.eqb (name (agent self)) "libera"
    then all_identified self history nick
    else none_identified self history nick.

(** An operator who enables TLS and verification and answers the three
    client-certificate prompts. *)
Definition tls_operator : operator :=
  Operator
    (fun prompt =>
       if String.eqb prompt "Channel to join" then Some "#foo"
       else if String.eqb prompt "TLS certificate file" then Some "client.pem"
       else if String.eqb prompt "TLS certificate keyfile" then Some "client.key"
       else if String.eqb prompt "TLS certificate password" then Some "hunter2"
       else None)
    (fun _ => None)
    (fun prompt =>
       if String.eqb prompt "Verify server TLS certificate" then Some true
       else None).

(** A configuration file written by hand, with the three client-certificate
    values under three keys. *)
Definition handwritten_config : gmap string cfg_value :=
  <["tls-certificate-password" := CStr "hunter2"]>
    (<["tls-certificate-keyfile" := CStr "client.key"]>
       (<["tls-certificate-file" := CStr "client.pem"]>
          (sample_config (CStr "#foo")))).

(** ** IrcAgent._run_client *)

(** The keyword arguments [_run_client] passes to pydle's [run]. *)
Record run_args := RunArgs {
  hostname : cfg_value;
  port : cfg_value;
  tls : cfg_value;
  tls_verify : cfg_value
}.

(** [_run_client], up to the call of [self.client.run]: the arguments are
    evaluated in the order they are written, [self.config[k]] raises
    [KeyError] on a missing key and [self.config.get(k, d)] gives [d]. *)
Definition _run_client (self : IrcAgent) : outcome run_args :=
  match config self !! "hostname" with
  | None => Raise (KeyError "hostname")
  | Some h =>
      match config self !! "port" with
      | None => Raise (KeyError "port")
      | Some p =>
          Return (RunArgs h p
                    (default (CBool true) (config self !! "tls"))
                    (default (CBool false) (config self !! "tls-verify")))
      end
  end.

(** ** Vocabulary of the properties *)

(** The keys under which [configure] stores an option. *)
Definition configure_keys : list string :=
  [ "nickname"; "hostname"; "port"; "channel"; "tls"; "tls-verify";
    "tls-certificate-file"; "tls-certificate-keyfile";
    "sasl-username"; "sasl-password"; "sasl-identity" ].




(** More sample data: a client whose agent has an empty configuration, one
    whose channel is a number, an operator who leaves every prompt empty and
    one who turns TLS off. *)
Definition client_with_config (cfg : gmap string cfg_value) : IrcClient :=
  Client (ClientArgs (CStr "halibot") None None None None None None)
         (Agent "irc" cfg).

Definition unconfigured : IrcClient := client_with_config ∅.

Definition misconfigured : IrcClient :=
  client_with_config (sample_config (CInt 5)).

Definition blank_operator : operator :=
  Operator (fun _ => None) (fun _ => None) (fun _ => None).

Definition plaintext_operator : operator :=
  Operator
    (fun prompt =>
       if String.eqb prompt "Channel to join" then Some "#foo"
       else if String.eqb prompt "TLS certificate keyfile" then Some "client.key"
       else None)
    (fun _ => None)
    (fun prompt =>
       if String.eqb prompt "Enable TLS" then Some false else None).

Definition calls_alice_speaks : list (IrcClient * call) :=
  [ (irc, OnChannelMessage "#foo" "alice" "hello");
    (libera, OnChannelMessage "#foo" "alice" "again");
    (irc, Identity "alice");
    (irc, OnQuit "#foo" "bob");
    (irc, OnChannelMessage "#foo" "alice" "bye") ].

Definition calls_with_messages : list (IrcClient * call) :=
  [ (irc, OnConnect);
    (irc, OnChannelMessage "#foo" "alice" "hello");
    (libera, OnPrivateMessage "bob" "psst");
    (irc, OnQuit "#foo" "alice");
    (unconfigured, OnConnect);
    (irc, OnChannelMessage "#foo" "alice" "again") ].

(** What [identity] hands back for a WHOIS record: the account name when the
    record is flagged identified, [None] otherwise. *)
Definition account_of (r : whois_info) : option string :=
  if identified r then account r else None.

(** What [identity] does with the value cached for the nickname: the account
    of a record, and [TypeError] when the value is [None]. *)
Definition resolve (info : option whois_info) : outcome (option string) :=
  match info with
  | Some r => Return (account_of r)
  | None => Raise (TypeError "'NoneType' object is not subscriptable")
  end.

(** ** The callbacks as pydle invokes them *)

(** Modelled from the spec: pydle, the IRC library the spec treats as an
    external collaborator, is not part of this repository.  It reports the
    events the spec names (connection, quit, nick change, channel message,
    private message) by calling the callback positionally:
    [on_quit(user, message)], [on_nick_change(old, new)],
    [on_channel_message(target, by, message)] and
    [on_private_message(target, by, message)]. *)
Inductive pydle_event :=
  | Connected
  | Quit (user message : string)
  | NickChange (old new : string)
  | ChannelMessage (target by_ message : string)
  | PrivateMessage (target by_ message : string).

(** The call pydle makes for an event, with its arguments bound to the
    parameters of the source in the order given: the quitting user lands in
    [on_quit]'s parameter [channel] and the quit message in [user]; the three
    arguments of a private message do not fit [on_private_message(by, text)]
    and the call raises [TypeError] before the body runs. *)
Definition deliver
  (pydle_whois : IrcClient -> list effect -> string -> option whois_info)
  (self : IrcClient) (ev : pydle_event) : M world unit :=
  match ev with
  | Connected => on_connect self
  | Quit user message => on_quit self user message
  | NickChange old new => on_nick_change self old new
  | ChannelMessage target by_ message =>
      on_channel_message pydle_whois self target by_ message
  | PrivateMessage target by_ message =>
      raise (TypeError
        "on_private_message() takes 3 positional arguments but 4 were given")
  end.







(** A server that knows nobody: every WHOIS reply is [None]. *)
Definition nobody_known
  : IrcClient -> list effect -> string -> option whois_info :=
  fun _ _ _ => None.

(** * Properties *)

(** ** The cache primitives *)

Lemma cache_contains_hit k r w :
  whois_cache w !! k = Some r -> cache_contains k w = (Return true, w).
Proof.
  intros H. unfold cache_contains. rewrite H.
  by rewrite bool_decide_eq_true_2.
Qed.

Lemma cache_contains_miss k w :
  whois_cache w !! k = None -> cache_contains k w = (Return false, w).
Proof.
  intros H. unfold cache_contains. rewrite H.
  rewrite bool_decide_eq_false_2; [done | by intros [? ?]].
Qed.

Lemma world_eta w : World (whois_cache w) (log w) = w.
Proof. by destruct w. Qed.

(** The guarded pop [if k in cache: cache.pop(k)] never raises and is the
    deletion of [k]. *)
Lemma guarded_pop k w :
  (present <- cache_contains k ;;
   if present : bool then cache_pop k ;;; ret tt else ret tt) w
  = (Return tt, World (delete k (whois_cache w)) (log w)).
Proof.
  unfold bind. destruct (whois_cache w !! k) as [r|] eqn:Hk.
  - rewrite (cache_contains_hit k r) by done.
    unfold cache_pop. by rewrite Hk.
  - rewrite cache_contains_miss by done.
    unfold ret. by rewrite delete_id, world_eta.
Qed.

Lemma bind_return {S A B} (m : M S A) (k : A -> M S B) s a s' :
  m s = (Return a, s') -> bind m k s = k a s'.
Proof. intros H. unfold bind. by rewrite H. Qed.

Lemma bind_raise {S A B} (m : M S A) (k : A -> M S B) s e s' :
  m s = (Raise e, s') -> bind m k s = (Raise e, s').
Proof. intros H. unfold bind. by rewrite H. Qed.

Section Properties.

Context (pydle_whois : IrcClient -> list effect -> string -> option whois_info).

(** The defining equations of the two methods that consult the server. *)
Lemma identity_unfold self nick :
  identity pydle_whois self nick
  = (present <- cache_contains nick ;;
     (if negb present
      then r <- whois pydle_whois self nick ;; cache_set nick r
      else ret tt) ;;;
     info <- cache_get nick ;;
     r <- subscript info ;;
     if identified r
     then info' <- cache_get nick ;; r' <- subscript info' ;; ret (account r')
     else ret None).
Proof. reflexivity. Qed.

Lemma on_channel_message_unfold self target by_ text :
  on_channel_message pydle_whois self target by_ text
  = (i <- identity pydle_whois self by_ ;;
     dispatch self
       (Msg text by_ (Resolved i) (name (agent self) +:+ "/" +:+ target))).
Proof. reflexivity. Qed.

Local Abbreviation identity := (identity pydle_whois).
Local Abbreviation on_channel_message := (on_channel_message pydle_whois).
Local Abbreviation run_call := (run_call pydle_whois).
Local Abbreviation run_calls := (run_calls pydle_whois).

Lemma on_quit_deletes self channel user w :
  on_quit self channel user w
  = (Return tt, World (delete user (whois_cache w)) (log w)).
Proof. apply guarded_pop. Qed.

Lemma on_nick_change_deletes self old new w :
  on_nick_change self old new w
  = (Return tt, World (delete new (delete old (whois_cache w))) (log w)).
Proof.
  unfold on_nick_change.
  destruct (whois_cache w !! old) as [r|] eqn:Hold.
  - erewrite bind_return by (by apply (cache_contains_hit old r)).
    erewrite bind_return
      by (unfold bind, cache_pop, ret; rewrite Hold; reflexivity).
    by rewrite guarded_pop.
  - erewrite bind_return by (by apply cache_contains_miss).
    erewrite bind_return by reflexivity.
    rewrite guarded_pop. by rewrite (delete_id _ old).
Qed.

(** Once the value [info] is cached for [nick], the rest of [identity]
    subscripts it: the outcome is [resolve info] and the state stays. *)
Lemma identity_tail nick info w :
  whois_cache w !! nick = Some info ->
  (info0 <- cache_get nick ;;
   r <- subscript info0 ;;
   if identified r
   then info' <- cache_get nick ;; r' <- subscript info' ;; ret (account r')
   else ret None) w
  = (resolve info, w).
Proof.
  intros H. unfold bind, cache_get. rewrite H.
  destruct info as [r|]; simpl; [|done].
  unfold account_of. destruct (identified r); [|done].
  by rewrite H.
Qed.

Lemma identity_miss self nick w :
  whois_cache w !! nick = None ->
  identity self nick w
  = (resolve (pydle_whois self (log w) nick),
     World (<[nick := pydle_whois self (log w) nick]> (whois_cache w))
           (log w ++ [Whois self nick])).
Proof.
  intros H. rewrite identity_unfold.
  erewrite bind_return by (by apply cache_contains_miss).
  erewrite bind_return by reflexivity.
  apply identity_tail. simpl. apply lookup_insert_eq.
Qed.

Lemma identity_hit self nick info w :
  whois_cache w !! nick = Some info ->
  identity self nick w = (resolve info, w).
Proof.
  intros H. rewrite identity_unfold.
  erewrite bind_return by (by apply (cache_contains_hit nick info)).
  erewrite bind_return by reflexivity.
  by apply identity_tail.
Qed.

(** In every case the outcome of [identity] is [resolve] of the value that
    is cached for the nickname when the call ends. *)
Lemma identity_outcome self nick w :
  ∃ info w', identity self nick w = (resolve info, w')
             ∧ whois_cache w' !! nick = Some info.
Proof.
  destruct (whois_cache w !! nick) as [info|] eqn:H.
  - exists info, w. by rewrite (identity_hit _ _ info).
  - eexists _, _. rewrite identity_miss by done.
    split; [done|]. simpl. apply lookup_insert_eq.
Qed.

(** ** on_connect *)

Lemma for_each_join self l w :
  for_each l (fun c => join self c) w
  = (Return tt, World (whois_cache w) (log w ++ map (Join self) l)).
Proof.
  revert w. induction l as [|c l IH]; intros w; simpl.
  - unfold ret. by rewrite app_nil_r, world_eta.
  - unfold bind, join, emit. rewrite IH. simpl.
    by rewrite <- app_assoc.
Qed.

Lemma joined_app l1 l2 : joined (l1 ++ l2) = joined l1 ++ joined l2.
Proof. apply omap_app. Qed.

Lemma joined_map_Join self l : joined (map (Join self) l) = l.
Proof. induction l as [|c l IH]; simpl; [done | by rewrite IH]. Qed.

Lemma dispatched_app l1 l2 :
  dispatched (l1 ++ l2) = dispatched l1 ++ dispatched l2.
Proof. apply omap_app. Qed.

Lemma on_connect_single self c w :
  config (agent self) !! "channel" = Some (CStr c) ->
  on_connect self w
  = (Return tt,
     World (whois_cache w) (log w ++ [SuperOnConnect self; Join self c])).
Proof.
  intros H. unfold on_connect, bind, config_get. rewrite H. simpl.
  unfold join, emit. simpl. by rewrite <- app_assoc.
Qed.

Lemma on_connect_sequence self l w :
  config (agent self) !! "channel" = Some (CList l) ->
  on_connect self w
  = (Return tt,
     World (whois_cache w) (log w ++ SuperOnConnect self :: map (Join self) l)).
Proof.
  intros H. unfold on_connect, bind, config_get. rewrite H. simpl.
  rewrite for_each_join. simpl. by rewrite <- app_assoc.
Qed.

Lemma on_connect_cache self w :
  whois_cache (on_connect self w).2 = whois_cache w.
Proof.
  unfold on_connect, bind, config_get. simpl.
  destruct (config (agent self) !! "channel") as [[c|z|b|l]|]; simpl; try done.
  by rewrite for_each_join.
Qed.

(** ** Calls that do not invalidate a nickname keep its cache entry *)

Lemma identity_keeps self m n r w :
  whois_cache w !! n = Some r ->
  whois_cache (identity self m w).2 !! n = Some r.
Proof.
  intros H. destruct (whois_cache w !! m) as [rm|] eqn:Hm.
  - by rewrite (identity_hit _ _ rm).
  - rewrite identity_miss by done. simpl.
    rewrite lookup_insert_ne; [done | congruence].
Qed.

Lemma on_channel_message_raises self target by_ text e wi w :
  identity self by_ w = (Raise e, wi) ->
  on_channel_message self target by_ text w = (Raise e, wi).
Proof.
  intros Hid. rewrite on_channel_message_unfold.
  by erewrite bind_raise by exact Hid.
Qed.

Lemma on_channel_message_cache self target by_ text w :
  whois_cache (on_channel_message self target by_ text w).2
  = whois_cache (identity self by_ w).2.
Proof.
  rewrite on_channel_message_unfold.
  destruct (identity self by_ w) as [[v|e] wi] eqn:Hid.
  - by erewrite bind_return by exact Hid.
  - by erewrite bind_raise by exact Hid.
Qed.

Lemma run_call_keeps self c n r w :
  invalidates n c = false ->
  whois_cache w !! n = Some r ->
  whois_cache (run_call self c w).2 !! n = Some r.
Proof.
  intros Hinv H. destruct c as [|ch u|old new|m|target by_ text|by_ text];
    simpl in *.
  - by rewrite on_connect_cache.
  - rewrite on_quit_deletes. simpl.
    apply bool_decide_eq_false in Hinv. by rewrite lookup_delete_ne.
  - rewrite on_nick_change_deletes. simpl.
    apply orb_false_iff in Hinv as [Ho Hn].
    apply bool_decide_eq_false in Ho, Hn.
    by rewrite !lookup_delete_ne.
  - pose proof (identity_keeps self m n r w H) as Hk.
    unfold bind. by destruct (identity self m w) as [[?|?] ?].
  - rewrite on_channel_message_cache. by apply identity_keeps.
  - done.
Qed.

Lemma run_calls_keep cs n r w :
  Forall (fun sc : IrcClient * call => invalidates n sc.2 = false) cs ->
  whois_cache w !! n = Some r ->
  whois_cache (run_calls cs w) !! n = Some r.
Proof.
  intros Hcs. revert w. induction Hcs as [|[self c] cs Hc _ IH]; intros w H.
  - done.
  - simpl. apply IH. by apply run_call_keeps.
Qed.

(** ** The claims about the identity cache *)

(** C10: [on_quit] returns normally, only ever removes entries, keeps every
    entry whose key is not [user], and changes nothing at all when [user] has
    no entry; [on_nick_change] returns normally, only ever removes entries,
    keeps every entry whose key is neither [old] nor [new], and changes
    nothing at all when neither has an entry.  Neither touches anything but
    the cache. *)
Theorem invalidation_frame self channel user old new w :
  (∃ w', on_quit self channel user w = (Return tt, w')
     ∧ log w' = log w
     ∧ whois_cache w' ⊆ whois_cache w
     ∧ (∀ k, k ≠ user -> whois_cache w' !! k = whois_cache w !! k)
     ∧ (whois_cache w !! user = None -> w' = w))
  ∧ (∃ w', on_nick_change self old new w = (Return tt, w')
       ∧ log w' = log w
       ∧ whois_cache w' ⊆ whois_cache w
       ∧ (∀ k, k ≠ old -> k ≠ new ->
            whois_cache w' !! k = whois_cache w !! k)
       ∧ (whois_cache w !! old = None -> whois_cache w !! new = None ->
            w' = w)).
Proof.
  split; eexists.
  - rewrite on_quit_deletes. repeat split; simpl.
    + apply delete_subseteq.
    + intros k Hk. by rewrite lookup_delete_ne.
    + intros H. by rewrite delete_id, world_eta.
  - rewrite on_nick_change_deletes. repeat split; simpl.
    + etrans; apply delete_subseteq.
    + intros k Ho Hn. by rewrite !lookup_delete_ne.
    + intros Ho Hn. by rewrite (delete_id _ old), delete_id, world_eta.
Qed.

(** ** Joining and event translation *)

(** C5: with a string [c] under the configuration key "channel",
    [on_connect] makes exactly one join call, [join c], and returns; with a
    sequence [l] it makes one join call per element of [l], in the order of
    [l], and returns.  In both cases the joins follow pydle's own
    [on_connect]. *)
Theorem on_connect_joins_configured_channels self w :
  (∀ c, config (agent self) !! "channel" = Some (CStr c) ->
     ∃ w', on_connect self w = (Return tt, w')
       ∧ log w' = log w ++ [SuperOnConnect self; Join self c]
       ∧ joined (log w') = joined (log w) ++ [c])
  ∧ (∀ l, config (agent self) !! "channel" = Some (CList l) ->
       ∃ w', on_connect self w = (Return tt, w')
         ∧ log w' = log w ++ SuperOnConnect self :: map (Join self) l
         ∧ joined (log w') = joined (log w) ++ l).
Proof.
  split.
  - intros c H. eexists. rewrite (on_connect_single self c) by done.
    split; [done|]. split; [done|]. simpl. by rewrite joined_app.
  - intros l H. eexists. rewrite (on_connect_sequence self l) by done.
    split; [done|]. split; [done|]. simpl. rewrite joined_app. simpl.
    change (omap _ (map (Join self) l)) with (joined (map (Join self) l)).
    by rewrite joined_map_Join.
Qed.

Lemma identity_dispatches_nothing self nick w :
  dispatched (log (identity self nick w).2) = dispatched (log w).
Proof.
  destruct (whois_cache w !! nick) as [r|] eqn:H.
  - by rewrite (identity_hit _ _ r).
  - rewrite identity_miss by done. simpl.
    rewrite dispatched_app. simpl. by rewrite app_nil_r.
Qed.

(** A channel message dispatches at most one message: none when [identity]
    raises, and otherwise the one built from the event, whose origin is the
    agent's name, "/" and the target. *)
Lemma on_channel_message_dispatches self target by_ text w :
  let w' := (on_channel_message self target by_ text w).2 in
  dispatched (log w') = dispatched (log w)
  ∨ ∃ i, dispatched (log w')
         = dispatched (log w)
           ++ [Msg text by_ (Resolved i)
                   (name (agent self) +:+ "/" +:+ target)].
Proof.
  intros w'. unfold w'. clear w'.
  pose proof (identity_dispatches_nothing self by_ w) as Hd.
  rewrite on_channel_message_unfold.
  destruct (identity self by_ w) as [[v|e] wi] eqn:Hid; simpl in Hd.
  - right. exists v. erewrite bind_return by exact Hid. simpl.
    by rewrite dispatched_app, Hd.
  - left. by erewrite bind_raise by exact Hid.
Qed.

End Properties.

(** The two origins given as examples: agent "irc", channel "#foo", author
    "alice". *)
Example origin_of_channel_message :
  origin <$> dispatched
    (log (on_channel_message all_identified irc "#foo" "alice" "hi" class_defined).2)
  = ["irc/#foo"].
Proof. vm_compute. reflexivity. Qed.

Example origin_of_private_message :
  origin <$> dispatched
    (log (on_private_message irc "alice" "hi" class_defined).2)
  = ["irc/alice"].
Proof. vm_compute. reflexivity. Qed.

(** The two channel configurations given as examples. *)
Example join_single_channel :
  joined (log (on_connect irc class_defined).2) = ["#foo"].
Proof. vm_compute. reflexivity. Qed.

Example join_channel_sequence :
  joined (log (on_connect irc_many class_defined).2) = ["#foo"; "#bar"].
Proof. vm_compute. reflexivity. Qed.

(** The two WHOIS replies given as examples. *)
Example identity_of_identified :
  (identity all_identified irc "alice" class_defined).1 = Return (Some "alice_").
Proof. vm_compute. reflexivity. Qed.

Example identity_of_unidentified :
  (identity none_identified irc "alice" class_defined).1 = Return None.
Proof. vm_compute. reflexivity. Qed.

(** ** Where the code departs from its specification *)

(** C1: [on_private_message] dispatches a message whose identity is the
    coroutine object of the un-awaited call [self.identity(by)], never a
    resolved value; it issues no WHOIS query and leaves the cache alone.  For
    "alice", whom the resolution algorithm resolves to "alice_" and whom
    [on_channel_message] reports as "alice_", the private message carries the
    coroutine object. *)
Theorem private_message_identity_is_unawaited_coroutine :
  (∀ self by_ text w,
     on_private_message self by_ text w
     = (Return tt,
        World (whois_cache w)
              (log w ++ [Dispatch self
                           (Msg text by_ (CoroutineObject self by_)
                                (name (agent self) +:+ "/" +:+ by_))])))
  ∧ (identity all_identified irc "alice" class_defined).1
    = Return (Some "alice_")
  ∧ msg_identity <$> dispatched
      (log (on_channel_message all_identified irc "#foo" "alice" "hi"
              class_defined).2)
    = [Resolved (Some "alice_")]
  ∧ msg_identity <$> dispatched
      (log (on_private_message irc "alice" "hi" class_defined).2)
    = [CoroutineObject irc "alice"]
  ∧ whois_queries (log (on_private_message irc "alice" "hi" class_defined).2)
    = [].
Proof.
  split; [done|]. repeat split; vm_compute; reflexivity.
Qed.

Lemma init_password_is_certificate_file a c :
  init a = Return c ->
  tls_certificate_password (args c) = config a !! "tls-certificate-file"
  ∧ tls_certificate_password (args c) = tls_certificate_file (args c).
Proof.
  unfold init. destruct (config a !! "nickname"); [|done].
  by intros [= <-].
Qed.

(** C7: for an operator who answers the three client-certificate prompts with
    "client.pem", "client.key" and "hunter2", [configure] stores only two
    keys: the answer to the password prompt lands under
    "tls-certificate-file", over the certificate file, no key
    "tls-certificate-password" exists, and "client.pem" is stored nowhere.
    [init] then passes "hunter2" as certificate file and as password.  For a
    configuration written by hand with three keys, [init] passes the
    certificate file "client.pem" as the password. *)
Theorem certificate_password_shares_the_file_key :
  let options := (configure tls_operator ∅).2 in
  (configure tls_operator ∅).1 = Return tt
  ∧ options !! "tls-certificate-file" = Some (CStr "hunter2")
  ∧ options !! "tls-certificate-keyfile" = Some (CStr "client.key")
  ∧ options !! "tls-certificate-password" = None
  ∧ filter (fun kv => kv.2 = CStr "client.pem") (map_to_list options) = []
  ∧ (∃ c, init (Agent "irc" options) = Return c
       ∧ tls_certificate_file (args c) = Some (CStr "hunter2")
       ∧ tls_certificate_password (args c) = Some (CStr "hunter2"))
  ∧ (∃ c, init (Agent "irc" handwritten_config) = Return c
       ∧ handwritten_config !! "tls-certificate-password"
         = Some (CStr "hunter2")
       ∧ tls_certificate_password (args c) = Some (CStr "client.pem")).
Proof.
  repeat split; try (vm_compute; reflexivity);
    eexists; (split; [vm_compute; reflexivity|]);
    split; vm_compute; reflexivity.
Qed.

Lemma cache_shared_between_instances pydle_whois self other n w :
  whois_cache w !! n = None ->
  let w1 := (identity pydle_whois self n w).2 in
  identity pydle_whois other n w1
  = (resolve (pydle_whois self (log w) n), w1).
Proof.
  intros H w1. unfold w1.
  rewrite (identity_miss pydle_whois self n w) by done. simpl.
  apply identity_hit. simpl. apply lookup_insert_eq.
Qed.

(** C8: the cache is one dictionary for all instances.  After the client of
    agent "libera" has translated a channel message from "alice", the client
    that [init] constructs for agent "oftc" finds the entry for "alice"
    already there: its [identity "alice"] issues no WHOIS query on its own
    connection, where "alice" is not identified, and returns the account
    "alice_" that the other network reported. *)
Theorem whois_cache_is_shared_by_all_instances :
  let w1 := (on_channel_message two_networks libera "#foo" "alice" "hi"
               class_defined).2 in
  init (Agent "oftc" (sample_config (CStr "#bar"))) = Return oftc
  ∧ whois_cache w1 !! "alice" = Some (Some (WhoisInfo true (Some "alice_")))
  ∧ two_networks oftc (log w1) "alice" = Some (WhoisInfo false None)
  ∧ identity two_networks oftc "alice" w1 = (Return (Some "alice_"), w1).
Proof.
  repeat split; vm_compute; reflexivity.
Qed.

(** C2: in every case the outcome of [identity n] is decided by the value
    cached for [n] when the call ends: the account of a record flagged
    identified, [None] for a record not flagged, but [TypeError] when that
    value is [None].  On a server that knows no "ghost", [identity "ghost"]
    issues the WHOIS query, stores the reply [None] and raises instead of
    returning absent; the entry stays, so the next call raises again without
    a query, and a channel message from "ghost" is never dispatched. *)
Theorem identity_raises_on_unknown_nickname :
  (∀ pydle_whois self n w,
     ∃ info w', identity pydle_whois self n w = (resolve info, w')
       ∧ whois_cache w' !! n = Some info)
  ∧ identity nobody_known irc "ghost" class_defined
    = (Raise (TypeError "'NoneType' object is not subscriptable"),
       World (<["ghost" := None]> ∅) [Whois irc "ghost"])
  ∧ identity nobody_known irc "ghost"
      (identity nobody_known irc "ghost" class_defined).2
    = (Raise (TypeError "'NoneType' object is not subscriptable"),
       World (<["ghost" := None]> ∅) [Whois irc "ghost"])
  ∧ on_channel_message nobody_known irc "#foo" "ghost" "boo" class_defined
    = (Raise (TypeError "'NoneType' object is not subscriptable"),
       World (<["ghost" := None]> ∅) [Whois irc "ghost"]).
Proof.
  split; [intros; apply identity_outcome|].
  repeat split; vm_compute; reflexivity.
Qed.

(** C3: pydle reports a quit as [on_quit(user, message)], so the quit
    message lands in the parameter [user] whose entry the handler removes.
    After [identity "alice"], "bob" quits with the message "alice": no quit
    of and no nick change involving "alice" has happened, yet her entry is
    gone and the second [identity "alice"] issues a second WHOIS query. *)
Theorem second_identity_queries_again_after_foreign_quit :
  let w1 := (identity all_identified irc "alice" class_defined).2 in
  let w2 := (deliver all_identified irc (Quit "bob" "alice") w1).2 in
  whois_cache w1 !! "alice" = Some (Some (WhoisInfo true (Some "alice_")))
  ∧ deliver all_identified irc (Quit "bob" "alice") w1
    = on_quit irc "bob" "alice" w1
  ∧ whois_cache w2 !! "alice" = None
  ∧ whois_queries (log w2) = ["alice"]
  ∧ whois_queries (log (identity all_identified irc "alice" w2).2)
    = ["alice"; "alice"].
Proof.
  repeat split; vm_compute; reflexivity.
Qed.

(** C4: a nick change from or to [n] removes the entry of [n], and the next
    [identity n] issues a WHOIS query and stores the fresh reply.  A quit
    does not: pydle reports it as [on_quit(user, message)], the handler
    removes the entry keyed by its second parameter, the quit message, and
    the entry of the user who quit stays.  After "alice" has quit,
    [identity "alice"] issues no WHOIS query and returns the stale account
    "alice_", although the server would now answer that she is not
    identified. *)
Theorem quit_leaves_the_stale_entry :
  (∀ pydle_whois self self' n other w,
     let fresh (res : outcome unit * world) :=
       res.1 = Return tt
       ∧ whois_cache res.2 !! n = None
       ∧ log (identity pydle_whois self' n res.2).2
         = log res.2 ++ [Whois self' n]
       ∧ whois_cache (identity pydle_whois self' n res.2).2 !! n
         = Some (pydle_whois self' (log res.2) n) in
     fresh (deliver pydle_whois self (NickChange n other) w)
     ∧ fresh (deliver pydle_whois self (NickChange other n) w))
  ∧ (let w1 := (identity identified_at_first irc "alice" class_defined).2 in
     let w2 := (deliver identified_at_first irc (Quit "alice" "Quit: bye") w1).2 in
     deliver identified_at_first irc (Quit "alice" "Quit: bye") w1
     = on_quit irc "alice" "Quit: bye" w1
     ∧ whois_cache w2 !! "alice"
       = Some (Some (WhoisInfo true (Some "alice_")))
     ∧ identified_at_first irc (log w2) "alice"
       = Some (WhoisInfo false None)
     ∧ identity identified_at_first irc "alice" w2
       = (Return (Some "alice_"), w2)).
Proof.
  split; [|repeat split; vm_compute; reflexivity].
  intros pydle_whois self self' n other w fresh. unfold fresh. simpl.
  rewrite !on_nick_change_deletes. simpl.
  assert (delete other (delete n (whois_cache w)) !! n = None) as Ho.
  { destruct (decide (other = n)) as [->|Hne].
    - apply lookup_delete_eq.
    - rewrite lookup_delete_ne by done. apply lookup_delete_eq. }
  assert (delete n (delete other (whois_cache w)) !! n = None) as Hn
    by apply lookup_delete_eq.
  split; (split; [done|]; split; [done|]);
    rewrite (identity_miss pydle_whois self' n (World _ (log w))) by done;
    simpl; (split; [done | apply lookup_insert_eq]).
Qed.

(** C6: a channel message that is dispatched has as origin the agent's name,
    "/" and the target, and [on_private_message(by, text)] builds the origin
    from the agent's name, "/" and [by].  But pydle reports a private
    message with three arguments, [(target, by, message)], which the
    two-parameter handler cannot take: the call raises [TypeError] before
    the body runs, so for a private message from "alice" no message, and no
    origin "irc/alice", reaches the host. *)
Theorem private_message_event_dispatches_nothing :
  (∀ pydle_whois self target by_ message w,
     deliver pydle_whois self (PrivateMessage target by_ message) w
     = (Raise (TypeError
          "on_private_message() takes 3 positional arguments but 4 were given"),
        w))
  ∧ dispatched
      (log (deliver all_identified irc (PrivateMessage "halibot" "alice" "hi")
              class_defined).2)
    = []
  ∧ origin <$> dispatched
      (log (deliver all_identified irc (ChannelMessage "#foo" "alice" "hi")
              class_defined).2)
    = ["irc/#foo"]
  ∧ (∀ pydle_whois self target by_ text w,
       let w' := (on_channel_message pydle_whois self target by_ text w).2 in
       dispatched (log w') = dispatched (log w)
       ∨ ∃ i, dispatched (log w')
              = dispatched (log w)
                ++ [Msg text by_ (Resolved i)
                        (name (agent self) +:+ "/" +:+ target)])
  ∧ (∀ self by_ text w,
       ∃ m, dispatched (log (on_private_message self by_ text w).2)
            = dispatched (log w) ++ [m]
          ∧ origin m = name (agent self) +:+ "/" +:+ by_).
Proof.
  split; [done|]. split; [vm_compute; reflexivity|].
  split; [vm_compute; reflexivity|]. split.
  - intros. apply on_channel_message_dispatches.
  - intros self by_ text w. eexists. simpl.
    by rewrite dispatched_app.
Qed.

(** ** The theorems with hypotheses, applied to concrete inputs *)

Lemma on_connect_joins_configured_channels_witness :
  config (agent irc) !! "channel" = Some (CStr "#foo")
  ∧ config (agent irc_many) !! "channel" = Some (CList ["#foo"; "#bar"])
  ∧ (∃ w', on_connect irc class_defined = (Return tt, w')
       ∧ log w' = log class_defined ++ [SuperOnConnect irc; Join irc "#foo"]
       ∧ joined (log w') = joined (log class_defined) ++ ["#foo"])
  ∧ (∃ w', on_connect irc_many class_defined = (Return tt, w')
       ∧ log w' = log class_defined
                  ++ SuperOnConnect irc_many
                     :: map (Join irc_many) ["#foo"; "#bar"]
       ∧ joined (log w') = joined (log class_defined) ++ ["#foo"; "#bar"]).
Proof.
  assert (config (agent irc) !! "channel" = Some (CStr "#foo")) as H1
    by (vm_compute; reflexivity).
  assert (config (agent irc_many) !! "channel"
          = Some (CList ["#foo"; "#bar"])) as H2
    by (vm_compute; reflexivity).
  split; [exact H1|]. split; [exact H2|]. split.
  - exact (proj1 (on_connect_joins_configured_channels irc class_defined)
             "#foo" H1).
  - exact (proj2 (on_connect_joins_configured_channels irc_many class_defined)
             ["#foo"; "#bar"] H2).
Defined.

Lemma invalidation_frame_witness :
  let w := (identity all_identified irc "bob" class_defined).2 in
  whois_cache w !! "alice" = None
  ∧ whois_cache w !! "carol" = None
  ∧ "bob" ≠ "alice"
  ∧ "bob" ≠ "carol"
  ∧ (∃ w', on_quit irc "#foo" "alice" w = (Return tt, w')
       ∧ whois_cache w' !! "bob" = whois_cache w !! "bob"
       ∧ w' = w)
  ∧ (∃ w', on_nick_change irc "alice" "carol" w = (Return tt, w')
       ∧ whois_cache w' !! "bob" = whois_cache w !! "bob"
       ∧ w' = w).
Proof.
  intros w.
  assert (whois_cache w !! "alice" = None) as Ha by (vm_compute; reflexivity).
  assert (whois_cache w !! "carol" = None) as Hc by (vm_compute; reflexivity).
  assert ("bob" ≠ "alice") as Hba by discriminate.
  assert ("bob" ≠ "carol") as Hbc by discriminate.
  destruct (invalidation_frame irc "#foo" "alice" "alice" "carol" w)
    as [(wq & Hq & _ & _ & Hqk & Hqs) (wn & Hn & _ & _ & Hnk & Hns)].
  split; [exact Ha|]. split; [exact Hc|].
  split; [exact Hba|]. split; [exact Hbc|]. split.
  - exists wq. split; [exact Hq|]. split; [exact (Hqk "bob" Hba)|].
    exact (Hqs Ha).
  - exists wn. split; [exact Hn|]. split; [exact (Hnk "bob" Hba Hbc)|].
    exact (Hns Ha Hc).
Defined.

(** * Further properties of the client *)

Lemma whois_queries_app l1 l2 :
  whois_queries (l1 ++ l2) = whois_queries l1 ++ whois_queries l2.
Proof. apply omap_app. Qed.

Lemma whois_queries_joins self l : whois_queries (map (Join self) l) = [].
Proof. by induction l. Qed.

Lemma dispatched_joins self l : dispatched (map (Join self) l) = [].
Proof. by induction l. Qed.

(** Whatever the configuration, [on_connect] only appends to the log, and
    what it appends holds neither a WHOIS query nor a dispatch. *)
Lemma on_connect_log self w :
  ∃ es, log (on_connect self w).2 = log w ++ es
        ∧ whois_queries es = [] ∧ dispatched es = [].
Proof.
  destruct (config (agent self) !! "channel") as [[c|z|b|l]|] eqn:H.
  - rewrite (on_connect_single self c) by done. by eexists.
  - unfold on_connect, bind, config_get. rewrite H. by eexists.
  - unfold on_connect, bind, config_get. rewrite H. by eexists.
  - rewrite (on_connect_sequence self l) by done. eexists.
    split; [done|]. simpl. by rewrite whois_queries_joins, dispatched_joins.
  - unfold on_connect, bind, config_get. rewrite H. by eexists.
Qed.

Lemma on_connect_without_channel_key_aux self w :
  config (agent self) !! "channel" = None ->
  on_connect self w
  = (Raise (KeyError "channel"),
     World (whois_cache w) (log w ++ [SuperOnConnect self])).
Proof.
  intros H. unfold on_connect, bind, config_get. by rewrite H.
Qed.

(** X1: without a key "channel" in the agent's configuration, [on_connect]
    raises [KeyError] for that key once pydle's own [on_connect] has run; it
    joins nothing and leaves the cache as it was. *)
Theorem on_connect_without_channel_key self w :
  config (agent self) !! "channel" = None ->
  on_connect self w
  = (Raise (KeyError "channel"),
     World (whois_cache w) (log w ++ [SuperOnConnect self])).
Proof. apply on_connect_without_channel_key_aux. Qed.

(** X2: when the value configured under "channel" is neither a string nor a
    sequence, [on_connect] raises [TypeError] once pydle's own [on_connect]
    has run; it joins nothing and leaves the cache as it was. *)
Theorem on_connect_channel_not_iterable self v w :
  config (agent self) !! "channel" = Some v ->
  (∀ c, v ≠ CStr c) ->
  (∀ l, v ≠ CList l) ->
  ∃ what, on_connect self w
          = (Raise (TypeError what),
             World (whois_cache w) (log w ++ [SuperOnConnect self])).
Proof.
  intros H Hstr Hlist. unfold on_connect, bind, config_get. rewrite H.
  destruct v as [c|z|b|l]; simpl.
  - by destruct (Hstr c).
  - by eexists.
  - by eexists.
  - by destruct (Hlist l).
Qed.

(** X4: a nick change is a quit of the old nickname followed by a quit of
    the new one; swapping the two nicknames gives the same result; and a
    second quit of the same user changes nothing more. *)
Theorem invalidations_compose self channel channel' old new w :
  on_nick_change self old new w
  = (on_quit self channel old ;;; on_quit self channel' new) w
  ∧ on_nick_change self old new w = on_nick_change self new old w
  ∧ (on_quit self channel old ;;; on_quit self channel' old) w
    = on_quit self channel old w.
Proof.
  rewrite !on_nick_change_deletes.
  split; [|split].
  - erewrite bind_return by apply on_quit_deletes.
    by rewrite on_quit_deletes.
  - by rewrite delete_delete.
  - erewrite bind_return by apply on_quit_deletes.
    rewrite !on_quit_deletes. simpl. by rewrite delete_delete_eq.
Qed.

Section Runs.

Context (pydle_whois : IrcClient -> list effect -> string -> option whois_info).

Lemma on_channel_message_run self target by_ text v wi w :
  identity pydle_whois self by_ w = (Return v, wi) ->
  on_channel_message pydle_whois self target by_ text w
  = (Return tt,
     World (whois_cache wi)
           (log wi ++ [Dispatch self
                         (Msg text by_ (Resolved v)
                              (name (agent self) +:+ "/" +:+ target))])).
Proof.
  intros Hid. rewrite on_channel_message_unfold.
  by erewrite bind_return by exact Hid.
Qed.

(** X3: whether it returns or raises, [identity nick] never removes or
    changes a cache entry, leaves the entries of all other nicknames as they
    are, and adds to the log at most the one WHOIS query for [nick]; its
    outcome is the account of the record cached for [nick] when it ends, or
    [TypeError] when the cached value is [None]. *)
Theorem identity_frame self nick w :
  ∃ info w', identity pydle_whois self nick w = (resolve info, w')
    ∧ whois_cache w' !! nick = Some info
    ∧ whois_cache w ⊆ whois_cache w'
    ∧ (∀ k, k ≠ nick -> whois_cache w' !! k = whois_cache w !! k)
    ∧ (log w' = log w ∨ log w' = log w ++ [Whois self nick]).
Proof.
  destruct (whois_cache w !! nick) as [info|] eqn:H.
  - exists info, w. rewrite (identity_hit _ _ _ info) by done.
    split; [done|]. split; [done|]. split; [done|]. split; [done | by left].
  - eexists _, _. rewrite identity_miss by done.
    split; [done|]. simpl. split; [apply lookup_insert_eq|].
    split; [by apply insert_subseteq|].
    split; [|by right].
    intros k Hk. by rewrite lookup_insert_ne.
Qed.

Lemma on_channel_message_by_value self target by_ text info wi w :
  identity pydle_whois self by_ w = (resolve info, wi) ->
  on_channel_message pydle_whois self target by_ text w
  = match info with
    | Some r =>
        (Return tt,
         World (whois_cache wi)
               (log wi ++ [Dispatch self
                             (Msg text by_ (Resolved (account_of r))
                                  (name (agent self) +:+ "/" +:+ target))]))
    | None =>
        (Raise (TypeError "'NoneType' object is not subscriptable"), wi)
    end.
Proof.
  intros Hid. destruct info as [r|]; simpl in Hid.
  - by apply on_channel_message_run.
  - by apply on_channel_message_raises.
Qed.

(** X8: what a channel message leads to is decided by the value cached for
    the author once the call is over.  For a record, one message is
    dispatched, with the text and the author as received, the origin of the
    channel, and the account of that record as identity; for [None], the
    call raises [TypeError] and dispatches nothing.  Either way the call
    issues one WHOIS query, for the author, when the author had no cache
    entry, and none otherwise. *)
Theorem on_channel_message_relays self target by_ text w :
  ∃ info res w',
    on_channel_message pydle_whois self target by_ text w = (res, w')
    ∧ whois_cache w' !! by_ = Some info
    ∧ res = match info with
            | Some _ => Return tt
            | None =>
                Raise (TypeError "'NoneType' object is not subscriptable")
            end
    ∧ dispatched (log w')
      = dispatched (log w)
        ++ match info with
           | Some r =>
               [Msg text by_ (Resolved (account_of r))
                    (name (agent self) +:+ "/" +:+ target)]
           | None => []
           end
    ∧ whois_queries (log w')
      = whois_queries (log w)
        ++ match whois_cache w !! by_ with
           | Some _ => []
           | None => [by_]
           end.
Proof.
  destruct (whois_cache w !! by_) as [info|] eqn:H.
  - exists info.
    rewrite (on_channel_message_by_value _ _ _ _ info w)
      by by apply identity_hit.
    destruct info as [r|]; eexists _, _; (split; [reflexivity|]); simpl;
      (split; [done|]); (split; [done|]);
      rewrite ?dispatched_app, ?whois_queries_app; simpl;
      by rewrite ?app_nil_r.
  - exists (pydle_whois self (log w) by_).
    erewrite on_channel_message_by_value by by apply identity_miss.
    destruct (pydle_whois self (log w) by_) as [r|];
      eexists _, _; (split; [reflexivity|]); simpl;
      (split; [apply lookup_insert_eq|]); (split; [done|]);
      rewrite ?dispatched_app, ?whois_queries_app; simpl;
      by rewrite ?app_nil_r.
Qed.

(** ** Sequences of calls *)

Lemma run_identity_world self nick w :
  (run_call pydle_whois self (Identity nick) w).2
  = (identity pydle_whois self nick w).2.
Proof.
  simpl. unfold bind.
  by destruct (identity pydle_whois self nick w) as [[v|e] wi].
Qed.

(** What one call does to the cache and to the log: it changes no entry and
    queries nothing; or it queries one uncached nickname and stores the
    reply; or it only removes entries and logs nothing. *)
Lemma run_call_shape self c w :
  let w' := (run_call pydle_whois self c w).2 in
  (whois_cache w' = whois_cache w
   ∧ ∃ es, log w' = log w ++ es ∧ whois_queries es = [])
  ∨ (∃ n, whois_cache w !! n = None
       ∧ whois_cache w' = <[n := pydle_whois self (log w) n]> (whois_cache w)
       ∧ ∃ es, log w' = log w ++ Whois self n :: es ∧ whois_queries es = [])
  ∨ (whois_cache w' ⊆ whois_cache w ∧ log w' = log w).
Proof.
  intros w'. unfold w'. clear w'.
  destruct c as [|ch u|old new|m|target by_ text|by_ text].
  - left. simpl. rewrite on_connect_cache. split; [done|].
    destruct (on_connect_log self w) as (es & Hes & Hq & _). by exists es.
  - right; right. simpl. rewrite on_quit_deletes. simpl.
    split; [apply delete_subseteq | done].
  - right; right. simpl. rewrite on_nick_change_deletes. simpl.
    split; [etrans; apply delete_subseteq | done].
  - rewrite run_identity_world.
    destruct (whois_cache w !! m) as [r|] eqn:H.
    + left. rewrite (identity_hit _ _ _ r) by done.
      split; [done|]. exists []. by rewrite app_nil_r.
    + right; left. exists m. rewrite identity_miss by done. simpl.
      split; [done|]. split; [done|]. by exists [].
  - simpl. destruct (whois_cache w !! by_) as [info|] eqn:H.
    + left.
      rewrite (on_channel_message_by_value _ _ _ _ info w)
        by by apply identity_hit.
      destruct info as [r|]; simpl.
      * split; [done|]. by eexists.
      * split; [done|]. exists []. by rewrite app_nil_r.
    + right; left. exists by_.
      erewrite on_channel_message_by_value by by apply identity_miss.
      destruct (pydle_whois self (log w) by_) as [r|]; simpl.
      * split; [done|]. split; [done|].
        eexists. by rewrite <- app_assoc.
      * split; [done|]. split; [done|]. by exists [].
  - left. simpl. split; [done|]. by eexists.
Qed.


Lemma cache_entries_justified cs w :
  (∀ n r, whois_cache w !! n = Some r ->
     ∃ self h t, log w = h ++ Whois self n :: t
                 ∧ (n ∉ whois_queries t)
                 ∧ r = pydle_whois self h n) ->
  ∀ n r, whois_cache (run_calls pydle_whois cs w) !! n = Some r ->
    ∃ self h t, log (run_calls pydle_whois cs w) = h ++ Whois self n :: t
                ∧ (n ∉ whois_queries t)
                ∧ r = pydle_whois self h n.
Proof.
  revert w. induction cs as [|[self c] cs IH]; intros w Hw; [done|].
  simpl. apply IH. intros n r Hn.
  destruct (run_call_shape self c w)
    as [(Hc & es & Hl & Hq) | [(m & Hm & Hc & es & Hl & Hq) | (Hc & Hl)]].
  - rewrite Hc in Hn. destruct (Hw n r Hn) as (s & h & t & Hlog & Hlast & ->).
    exists s, h, (t ++ es). rewrite Hl, Hlog.
    split; [by rewrite <- app_assoc|].
    split; [|done]. by rewrite whois_queries_app, Hq, app_nil_r.
  - rewrite Hc in Hn. destruct (decide (m = n)) as [->|Hne].
    + rewrite lookup_insert_eq in Hn. injection Hn as <-.
      exists self, (log w), es. rewrite Hq.
      split; [done|]. split; [apply not_elem_of_nil | done].
    + rewrite lookup_insert_ne in Hn by done.
      destruct (Hw n r Hn) as (s & h & t & Hlog & Hlast & ->).
      exists s, h, (t ++ Whois self m :: es).
      rewrite Hl, Hlog. split; [by rewrite <- app_assoc|].
      split; [|done]. rewrite whois_queries_app. simpl. rewrite Hq.
      rewrite elem_of_app, list_elem_of_singleton.
      intros [Hin|Heq]; [done | congruence].
  - rewrite Hl. apply Hw. by eapply lookup_weaken.
Qed.

(** X5: starting from the empty cache of the freshly defined class, after
    any sequence of calls every cache entry is the reply to the latest WHOIS
    query for that nickname in the log: the record equals what the server
    answered, to the instance that asked, at the time of that query, and no
    query for the nickname follows it. *)
Theorem cached_records_are_whois_replies cs n r :
  whois_cache (run_calls pydle_whois cs class_defined) !! n = Some r ->
  ∃ self h t,
    log (run_calls pydle_whois cs class_defined) = h ++ Whois self n :: t
    ∧ (n ∉ whois_queries t)
    ∧ r = pydle_whois self h n.
Proof.
  apply cache_entries_justified. intros n' r' H. simpl in H.
  by rewrite lookup_empty in H.
Qed.












End Runs.

(** * Further properties of the agent: configuration and start-up *)

Section Configuration.

Context (op : operator).

Lemma bind_store {B} key val (k : unit -> M (gmap string cfg_value) B) o :
  bind (store key val) k o = k tt (store key val o).2.
Proof. reflexivity. Qed.

Lemma store_run key val o : store key val o = (Return tt, (store key val o).2).
Proof. reflexivity. Qed.

Lemma store_lookup key val o k :
  (store key val o).2 !! k
  = if decide (key = k)
    then match val with Some v => Some v | None => o !! k end
    else o !! k.
Proof.
  unfold store. simpl. destruct val as [v|]; case_decide; subst; try done.
  - apply lookup_insert_eq.
  - by apply lookup_insert_ne.
Qed.

Lemma store_lookup_ne key val o k :
  key ≠ k -> (store key val o).2 !! k = o !! k.
Proof. intros H. rewrite store_lookup. by case_decide. Qed.

Lemma store_lookup_some key v o : (store key (Some v) o).2 !! key = Some v.
Proof. rewrite store_lookup. by case_decide. Qed.

Lemma store_lookup_answer key a o :
  (store key (CStr <$> or_default a None) o).2 !! key
  = match a with
    | Some s => Some (CStr s)
    | None => o !! key
    end.
Proof. rewrite store_lookup. case_decide; [|done]. by destruct a. Qed.

Lemma bind_options_get {B} key v (k : cfg_value -> M (gmap string cfg_value) B) o :
  o !! key = Some v -> bind (options_get key) k o = k v o.
Proof. intros H. unfold bind, options_get. by rewrite H. Qed.

Lemma bind_options_contains {B} key (k : bool -> M (gmap string cfg_value) B) o :
  bind (options_contains key) k o = k (bool_decide (is_Some (o !! key))) o.
Proof. reflexivity. Qed.

Lemma or_default_some {A} (a : option A) d :
  or_default a (Some d) = Some (default d a).
Proof. by destruct a. Qed.

Lemma not_in_configure_keys k :
  k ∉ configure_keys ->
  "nickname" ≠ k ∧ "hostname" ≠ k ∧ "port" ≠ k ∧ "channel" ≠ k ∧ "tls" ≠ k
  ∧ "tls-verify" ≠ k ∧ "tls-certificate-file" ≠ k
  ∧ "tls-certificate-keyfile" ≠ k ∧ "sasl-username" ≠ k
  ∧ "sasl-password" ≠ k ∧ "sasl-identity" ≠ k.
Proof.
  unfold configure_keys. intros H.
  repeat (apply not_elem_of_cons in H as [? H]).
  repeat split; congruence.
Qed.

Lemma bind_assoc {S A B C} (m : M S A) (k1 : A -> M S B) (k2 : B -> M S C) s :
  bind (bind m k1) k2 s = bind m (fun a => bind (k1 a) k2) s.
Proof. unfold bind. by destruct (m s) as [[a|e] s']. Qed.

Lemma bind_ret {S A B} (a : A) (k : A -> M S B) s : bind (ret a) k s = k a s.
Proof. reflexivity. Qed.

Ltac configure_step :=
  first
    [ rewrite bind_assoc
    | rewrite bind_ret
    | rewrite bind_store
    | erewrite bind_options_get
        by apply store_lookup_some;
      cbn [truthy]
    | rewrite bind_options_contains ].

Ltac lookup_stores :=
  repeat first
    [ rewrite store_lookup_some
    | rewrite store_lookup_answer
    | rewrite store_lookup_ne by first [assumption | discriminate] ].

Ltac lookup_stores_in H :=
  repeat first
    [ rewrite store_lookup_some in H
    | rewrite store_lookup_answer in H
    | rewrite store_lookup_ne in H by first [assumption | discriminate] ].

Lemma configure_summary o :
  ∃ o', configure op o = (Return tt, o')
    ∧ o' !! "nickname"
      = Some (CStr (default "halibot" (answer_string op "Nickname")))
    ∧ o' !! "hostname"
      = Some (CStr (default "irc.libera.chat"
                      (answer_string op "Server hostname")))
    ∧ o' !! "port" = Some (CInt (default 6697%Z (answer_int op "Server port")))
    ∧ o' !! "tls"
      = Some (CBool (default true (answer_boolean op "Enable TLS")))
    ∧ o' !! "channel"
      = match answer_string op "Channel to join" with
        | Some c => Some (CStr c)
        | None => o !! "channel"
        end
    ∧ (∀ k, k ∉ configure_keys -> o' !! k = o !! k)
    ∧ (answer_boolean op "Enable TLS" = Some false ->
       o' !! "tls-verify" = o !! "tls-verify"
       ∧ o' !! "tls-certificate-file" = o !! "tls-certificate-file"
       ∧ o' !! "tls-certificate-keyfile" = o !! "tls-certificate-keyfile")
    ∧ (answer_boolean op "Verify server TLS certificate" ≠ Some true ->
       o' !! "tls-certificate-file" = o !! "tls-certificate-file"
       ∧ o' !! "tls-certificate-keyfile" = o !! "tls-certificate-keyfile")
    ∧ (answer_string op "SASL username" = None ->
       o !! "sasl-username" = None ->
       o' !! "sasl-username" = None
       ∧ o' !! "sasl-password" = o !! "sasl-password"
       ∧ o' !! "sasl-identity" = o !! "sasl-identity").
Proof.
  unfold configure, optionString, optionInt, optionBoolean.
  rewrite !or_default_some.
  do 6 configure_step.
  destruct (answer_boolean op "Enable TLS") as [[|]|] eqn:Htls;
    cbn [default from_option id fmap option_fmap option_map];
    repeat configure_step;
    try (destruct (answer_boolean op "Verify server TLS certificate")
           as [[|]|] eqn:Hverify;
         cbn [default from_option id fmap option_fmap option_map];
         repeat configure_step);
    match goal with
    | |- context [bool_decide ?P] => destruct (bool_decide P) eqn:Hsasl
    end;
    first [ apply bool_decide_eq_true in Hsasl
          | apply bool_decide_eq_false in Hsasl ];
    lookup_stores_in Hsasl;
    repeat configure_step;
    (eexists; split; [first [apply store_run | reflexivity] |]).
  all: repeat split; intros.
  all: try (apply not_in_configure_keys in H; destruct_and! ).
  all: lookup_stores; try done.
  all: match goal with
       | Hans : answer_string op "SASL username" = None,
         Hold : ?m !! "sasl-username" = None |- _ =>
           rewrite Hans, ?Hold in *
       end.
  all: first [ done | by destruct Hsasl ].
Qed.

(** X9: for every operator and whatever the options held before,
    [configure] returns normally (the two look-ups of "tls" and "tls-verify"
    never miss), and afterwards "nickname", "hostname", "port" and "tls"
    hold the operator's answer or else the defaults "halibot",
    "irc.libera.chat", 6697 and [True]; "channel", which has no default,
    holds the answer or else what it held before. *)
Theorem configure_returns_with_defaults o :
  ∃ o', configure op o = (Return tt, o')
    ∧ o' !! "nickname"
      = Some (CStr (default "halibot" (answer_string op "Nickname")))
    ∧ o' !! "hostname"
      = Some (CStr (default "irc.libera.chat"
                      (answer_string op "Server hostname")))
    ∧ o' !! "port" = Some (CInt (default 6697%Z (answer_int op "Server port")))
    ∧ o' !! "tls"
      = Some (CBool (default true (answer_boolean op "Enable TLS")))
    ∧ o' !! "channel"
      = match answer_string op "Channel to join" with
        | Some c => Some (CStr c)
        | None => o !! "channel"
        end.
Proof.
  destruct (configure_summary o)
    as (o' & Hrun & Hnick & Hhost & Hport & Htls & Hchan & _).
  by exists o'.
Qed.

(** X10: [configure] stores only under its eleven keys: every other key of
    the options, "tls-certificate-password" among them, is left as it
    was. *)
Theorem configure_writes_only_its_keys o k :
  k ∉ configure_keys ->
  (configure op o).2 !! k = o !! k.
Proof.
  intros Hk.
  destruct (configure_summary o) as (o' & Hrun & _ & _ & _ & _ & _ & Hframe & _).
  rewrite Hrun. by apply Hframe.
Qed.

(** X11: the dependent prompts are gated.  When the operator turns TLS off,
    "tls-verify" and the two certificate keys are left as they were; when
    the operator does not turn verification on, the two certificate keys
    are left as they were; and when no SASL username is given and none was
    stored before, no SASL key is stored. *)
Theorem configure_gates_dependent_prompts o :
  (answer_boolean op "Enable TLS" = Some false ->
   (configure op o).2 !! "tls-verify" = o !! "tls-verify"
   ∧ (configure op o).2 !! "tls-certificate-file"
     = o !! "tls-certificate-file"
   ∧ (configure op o).2 !! "tls-certificate-keyfile"
     = o !! "tls-certificate-keyfile")
  ∧ (answer_boolean op "Verify server TLS certificate" ≠ Some true ->
     (configure op o).2 !! "tls-certificate-file"
     = o !! "tls-certificate-file"
     ∧ (configure op o).2 !! "tls-certificate-keyfile"
       = o !! "tls-certificate-keyfile")
  ∧ (answer_string op "SASL username" = None ->
     o !! "sasl-username" = None ->
     (configure op o).2 !! "sasl-username" = None
     ∧ (configure op o).2 !! "sasl-password" = o !! "sasl-password"
     ∧ (configure op o).2 !! "sasl-identity" = o !! "sasl-identity").
Proof.
  destruct (configure_summary o)
    as (o' & Hrun & _ & _ & _ & _ & _ & _ & Htls & Hverify & Hsasl).
  by rewrite Hrun.
Qed.

End Configuration.

(** ** From the configurer to the running client *)

Lemma init_on_configured_options op o agent_name :
  let self := Agent agent_name (configure op o).2 in
  ∃ c, init self = Return c
    ∧ agent c = self
    ∧ nickname (args c)
      = CStr (default "halibot" (answer_string op "Nickname")).
Proof.
  intros self. unfold self.
  destruct (configure_summary op o) as (o' & Hrun & Hnick & _).
  rewrite Hrun. simpl. unfold init. simpl. rewrite Hnick. by eexists.
Qed.

(** X12: whatever the operator answers and whatever the options held before,
    [init] on the configured options finds "nickname" and constructs the
    client: the nickname passed on is the operator's answer or else
    "halibot", and the client's [agent] handle is the agent itself. *)
Theorem init_after_configure op o agent_name :
  let self := Agent agent_name (configure op o).2 in
  ∃ c, init self = Return c
    ∧ agent c = self
    ∧ nickname (args c)
      = CStr (default "halibot" (answer_string op "Nickname")).
Proof. apply init_on_configured_options. Qed.

(** X13: whatever the operator answers and whatever the options held before,
    [_run_client] on the configured options finds "hostname" and "port" and
    passes on the operator's answers or else "irc.libera.chat" and 6697, and
    the TLS flag as answered or else [True]; with TLS turned off, the
    verification flag is the one the options held before or else [False]. *)
Theorem run_client_after_configure op o agent_name :
  ∃ r, _run_client (Agent agent_name (configure op o).2) = Return r
    ∧ hostname r
      = CStr (default "irc.libera.chat" (answer_string op "Server hostname"))
    ∧ port r = CInt (default 6697%Z (answer_int op "Server port"))
    ∧ tls r = CBool (default true (answer_boolean op "Enable TLS"))
    ∧ (answer_boolean op "Enable TLS" = Some false ->
       tls_verify r = default (CBool false) (o !! "tls-verify")).
Proof.
  destruct (configure_summary op o)
    as (o' & Hrun & _ & Hhost & Hport & Htls & _ & _ & Hoff & _).
  rewrite Hrun. unfold _run_client. simpl. rewrite Hhost, Hport, Htls.
  eexists. split; [done|]. simpl. repeat split.
  intros Hans. destruct (Hoff Hans) as (-> & _). done.
Qed.

(** X14: when the operator names a channel, the client that [init]
    constructs from the configured options joins exactly that channel on
    connection: the configurer yields a single channel, never a
    sequence. *)
Theorem configured_channel_is_joined op o agent_name c :
  answer_string op "Channel to join" = Some c ->
  ∃ self, init (Agent agent_name (configure op o).2) = Return self
    ∧ ∀ w, on_connect self w
           = (Return tt,
              World (whois_cache w)
                    (log w ++ [SuperOnConnect self; Join self c])).
Proof.
  intros Hans.
  destruct (init_on_configured_options op o agent_name)
    as (self & Hinit & Hagent & _).
  exists self. split; [done|]. intros w.
  apply on_connect_single. rewrite Hagent. simpl.
  destruct (configure_summary op o) as (o' & Hrun & _ & _ & _ & _ & Hchan & _).
  rewrite Hrun. simpl. by rewrite Hchan, Hans.
Qed.

(** X15: the channel prompt has no default.  When the operator leaves it
    empty and the options held no channel before, the configured options
    have no key "channel", and the client that [init] constructs from them
    raises [KeyError] in [on_connect] and joins nothing. *)
Theorem blank_channel_fails_on_connect op o agent_name :
  answer_string op "Channel to join" = None ->
  o !! "channel" = None ->
  ∃ self, init (Agent agent_name (configure op o).2) = Return self
    ∧ ∀ w, on_connect self w
           = (Raise (KeyError "channel"),
              World (whois_cache w) (log w ++ [SuperOnConnect self])).
Proof.
  intros Hans Hold.
  destruct (init_on_configured_options op o agent_name)
    as (self & Hinit & Hagent & _).
  exists self. split; [done|]. intros w.
  apply on_connect_without_channel_key_aux. rewrite Hagent. simpl.
  destruct (configure_summary op o) as (o' & Hrun & _ & _ & _ & _ & Hchan & _).
  rewrite Hrun. simpl. by rewrite Hchan, Hans.
Qed.

(** ** The further theorems with hypotheses, applied to concrete inputs *)

Lemma on_connect_without_channel_key_witness :
  config (agent unconfigured) !! "channel" = None
  ∧ on_connect unconfigured class_defined
    = (Raise (KeyError "channel"), World ∅ [SuperOnConnect unconfigured]).
Proof.
  assert (config (agent unconfigured) !! "channel" = None) as H
    by reflexivity.
  split; [exact H|].
  exact (on_connect_without_channel_key unconfigured class_defined H).
Defined.

Lemma on_connect_channel_not_iterable_witness :
  config (agent misconfigured) !! "channel" = Some (CInt 5)
  ∧ (∀ c, CInt 5 ≠ CStr c)
  ∧ (∀ l, CInt 5 ≠ CList l)
  ∧ ∃ what, on_connect misconfigured class_defined
            = (Raise (TypeError what), World ∅ [SuperOnConnect misconfigured]).
Proof.
  assert (config (agent misconfigured) !! "channel" = Some (CInt 5)) as H
    by (vm_compute; reflexivity).
  assert (∀ c, CInt 5 ≠ CStr c) as Hstr by discriminate.
  assert (∀ l, CInt 5 ≠ CList l) as Hlist by discriminate.
  split; [exact H|]. split; [exact Hstr|]. split; [exact Hlist|].
  exact (on_connect_channel_not_iterable
           misconfigured (CInt 5) class_defined H Hstr Hlist).
Defined.

Lemma identity_frame_witness :
  let w := (identity all_identified irc "bob" class_defined).2 in
  "bob" ≠ "alice"
  ∧ ∃ info w', identity all_identified irc "alice" w = (resolve info, w')
      ∧ whois_cache w' !! "bob" = whois_cache w !! "bob".
Proof.
  intros w.
  assert ("bob" ≠ "alice") as Hne by discriminate.
  destruct (identity_frame all_identified irc "alice" w)
    as (info & w' & Hid & _ & _ & Hkeep & _).
  split; [exact Hne|].
  exists info, w'. split; [exact Hid|]. exact (Hkeep "bob" Hne).
Defined.

Lemma cached_records_are_whois_replies_witness :
  let w := run_calls identified_at_first calls_with_messages class_defined in
  whois_cache w !! "alice" = Some (Some (WhoisInfo false None))
  ∧ ∃ self h t, log w = h ++ Whois self "alice" :: t
      ∧ ("alice" ∉ whois_queries t)
      ∧ Some (WhoisInfo false None) = identified_at_first self h "alice".
Proof.
  intros w.
  assert (whois_cache w !! "alice" = Some (Some (WhoisInfo false None))) as H
    by (vm_compute; reflexivity).
  split; [exact H|].
  exact (cached_records_are_whois_replies
           identified_at_first calls_with_messages "alice" _ H).
Defined.



Lemma configure_writes_only_its_keys_witness :
  ("tls-certificate-password" ∉ configure_keys)
  ∧ (configure tls_operator handwritten_config).2 !! "tls-certificate-password"
    = handwritten_config !! "tls-certificate-password".
Proof.
  assert ("tls-certificate-password" ∉ configure_keys) as H.
  { unfold configure_keys. rewrite !not_elem_of_cons.
    repeat split; try discriminate. apply not_elem_of_nil. }
  split; [exact H|].
  exact (configure_writes_only_its_keys
           tls_operator handwritten_config "tls-certificate-password" H).
Defined.

Lemma configure_gates_dependent_prompts_witness :
  let o' := (configure plaintext_operator handwritten_config).2 in
  answer_boolean plaintext_operator "Enable TLS" = Some false
  ∧ answer_boolean plaintext_operator "Verify server TLS certificate"
    ≠ Some true
  ∧ answer_string plaintext_operator "SASL username" = None
  ∧ handwritten_config !! "sasl-username" = None
  ∧ o' !! "tls-verify" = handwritten_config !! "tls-verify"
  ∧ o' !! "tls-certificate-keyfile"
    = handwritten_config !! "tls-certificate-keyfile"
  ∧ o' !! "sasl-password" = handwritten_config !! "sasl-password".
Proof.
  intros o'.
  assert (answer_boolean plaintext_operator "Enable TLS" = Some false) as Htls
    by reflexivity.
  assert (answer_boolean plaintext_operator "Verify server TLS certificate"
          ≠ Some true) as Hverify by discriminate.
  assert (answer_string plaintext_operator "SASL username" = None) as Hsasl
    by reflexivity.
  assert (handwritten_config !! "sasl-username" = None) as Hold
    by (vm_compute; reflexivity).
  destruct (configure_gates_dependent_prompts
              plaintext_operator handwritten_config) as (Hoff & Hnov & Hnos).
  split; [exact Htls|]. split; [exact Hverify|].
  split; [exact Hsasl|]. split; [exact Hold|].
  split; [exact (proj1 (Hoff Htls))|].
  split; [exact (proj2 (Hnov Hverify))|].
  exact (proj1 (proj2 (Hnos Hsasl Hold))).
Defined.

Lemma run_client_after_configure_witness :
  answer_boolean plaintext_operator "Enable TLS" = Some false
  ∧ ∃ r, _run_client (Agent "irc" (configure plaintext_operator ∅).2) = Return r
      ∧ tls r = CBool false
      ∧ tls_verify r = CBool false.
Proof.
  assert (answer_boolean plaintext_operator "Enable TLS" = Some false) as Htls
    by reflexivity.
  destruct (run_client_after_configure plaintext_operator ∅ "irc")
    as (r & Hrun & _ & _ & Htlsr & Hverify).
  split; [exact Htls|].
  exists r. split; [exact Hrun|]. split; [exact Htlsr|].
  exact (Hverify Htls).
Defined.

Lemma configured_channel_is_joined_witness :
  answer_string tls_operator "Channel to join" = Some "#foo"
  ∧ ∃ self, init (Agent "irc" (configure tls_operator ∅).2) = Return self
      ∧ ∀ w, on_connect self w
             = (Return tt,
                World (whois_cache w)
                      (log w ++ [SuperOnConnect self; Join self "#foo"])).
Proof.
  assert (answer_string tls_operator "Channel to join" = Some "#foo") as H
    by reflexivity.
  split; [exact H|].
  exact (configured_channel_is_joined tls_operator ∅ "irc" "#foo" H).
Defined.

Lemma blank_channel_fails_on_connect_witness :
  answer_string blank_operator "Channel to join" = None
  ∧ (∅ : gmap string cfg_value) !! "channel" = None
  ∧ ∃ self, init (Agent "irc" (configure blank_operator ∅).2) = Return self
      ∧ ∀ w, on_connect self w
             = (Raise (KeyError "channel"),
                World (whois_cache w) (log w ++ [SuperOnConnect self])).
Proof.
  assert (answer_string blank_operator "Channel to join" = None) as H
    by reflexivity.
  assert ((∅ : gmap string cfg_value) !! "channel" = None) as Hold
    by reflexivity.
  split; [exact H|]. split; [exact Hold|].
  exact (blank_channel_fails_on_connect blank_operator ∅ "irc" H Hold).
Defined.
